(** * Arch/ArmNative/types.h: the Windows/COM portability header

    A shallow embedding of the header [src/Arch/ArmNative/types.h]:
    its [#define] table with a small macro expander, its typedef and
    struct declarations in source order with the type they resolve to,
    the size and layout of those types under the usual C data models,
    the integer constants, and the one function it defines, the
    [operator ==] on [GUID]. *)

From Stdlib Require Import ZArith List String Ascii Bool Lia.
From Stdlib Require Import Strings.Byte.
Import ListNotations.

Local Open Scope string_scope.
Local Open Scope Z_scope.

(** ** C types as the header writes them *)

Module CType.

(** Type expressions.  [Tnamed] is a use of a typedef name or of a
    struct name, [Tstruct] the struct type a [struct tag { ... }]
    definition introduces. *)
Inductive ctype : Type :=
| Tvoid
| Tbool
| Tchar
| Tuchar
| Tshort
| Tushort
| Tint
| Tuint
| Tlong
| Tulong
| Twchar
| Tnamed (name : string)
| Tptr (t : ctype)
| Tref (t : ctype)
| Tarray (t : ctype) (n : nat)
| Tstruct (tag : string).

Fixpoint ctype_eqb (a b : ctype) : bool :=
  match a, b with
  | Tvoid, Tvoid | Tbool, Tbool | Tchar, Tchar | Tuchar, Tuchar
  | Tshort, Tshort | Tushort, Tushort | Tint, Tint | Tuint, Tuint
  | Tlong, Tlong | Tulong, Tulong | Twchar, Twchar => true
  | Tnamed x, Tnamed y => String.eqb x y
  | Tptr x, Tptr y => ctype_eqb x y
  | Tref x, Tref y => ctype_eqb x y
  | Tarray x n, Tarray y m => ctype_eqb x y && Nat.eqb n m
  | Tstruct x, Tstruct y => String.eqb x y
  | _, _ => false
  end.

(** A member function of a struct: [virtual ret name(params) = 0;]. *)
Record method : Type := Method {
  m_virtual : bool;
  m_pure : bool;
  m_ret : ctype;
  m_name : string;
  m_params : list ctype
}.

(** The declarations a header can hold. *)
Inductive decl : Type :=
| Typedef (name : string) (t : ctype)
| StructDef (tag : string) (fields : list (string * ctype))
            (methods : list method)
| ExternVar (name : string) (t : ctype).

End CType.
Export CType.

(** ** The declarations of types.h *)

(** Lines 36-84 of the header, the [#else] branch, in source order.
    [typedef struct _GUID { ... } GUID;] is the struct definition followed
    by the typedef of its name.  With [_WINDOWS] defined the header
    declares nothing itself and includes [<objbase.h>]. *)
Definition types_h (windows : bool) : list decl :=
  if windows then []
  else
  [ Typedef "UINT" Tulong;
    Typedef "INT" Tint;
    Typedef "BOOL" Tlong;
    Typedef "BYTE" Tuchar;
    Typedef "LONG" Tlong;
    Typedef "ULONG" Tulong;
    Typedef "WORD" Tushort;
    Typedef "DWORD" Tulong;
    Typedef "VARTYPE" Tushort;
    Typedef "USHORT" Tushort;
    Typedef "LCID" (Tnamed "DWORD");
    Typedef "SCODE" (Tnamed "LONG");
    Typedef "SHORT" Tshort;
    Typedef "WCHAR" Twchar;
    Typedef "TCHAR" (Tnamed "WCHAR");
    Typedef "OLECHAR" (Tnamed "WCHAR");
    StructDef "_GUID"
      [ ("Data1", Tnamed "DWORD");
        ("Data2", Tnamed "WORD");
        ("Data3", Tnamed "WORD");
        ("Data4", Tarray (Tnamed "BYTE") 8) ]
      [];
    Typedef "GUID" (Tstruct "_GUID");
    Typedef "IID" (Tnamed "GUID");
    Typedef "LPIID" (Tptr (Tnamed "IID"));
    Typedef "HWND" (Tptr Tvoid);
    Typedef "HMENU" (Tptr Tvoid);
    Typedef "HANDLE" (Tptr Tvoid);
    Typedef "REFGUID" (Tref (Tnamed "GUID"));
    Typedef "REFIID" (Tref (Tnamed "IID"));
    Typedef "HRESULT" Tint;
    Typedef "LPWSTR" (Tptr Tchar);
    StructDef "IUnknown" []
      [ Method true true (Tnamed "HRESULT") "QueryInterface"
               [Tnamed "REFIID"; Tptr (Tptr Tvoid)];
        Method true true (Tnamed "ULONG") "AddRef" [];
        Method true true (Tnamed "ULONG") "Release" [] ];
    ExternVar "IID_IUnknown" (Tnamed "IID") ].

(** ** Name resolution *)

Module Env.

Definition env : Type := list (string * ctype).

Fixpoint lookup {A : Type} (x : string) (e : list (string * A)) : option A :=
  match e with
  | [] => None
  | (y, v) :: e' => if String.eqb x y then Some v else lookup x e'
  end.

(** The type a type expression denotes: every name is replaced by the
    type it was declared as.  The environment holds resolved types, so
    one pass is enough.  A name that was never declared stays as it is. *)
Fixpoint resolve (e : env) (t : ctype) : ctype :=
  match t with
  | Tnamed x => match lookup x e with Some u => u | None => Tnamed x end
  | Tptr u => Tptr (resolve e u)
  | Tref u => Tref (resolve e u)
  | Tarray u n => Tarray (resolve e u) n
  | _ => t
  end.

(** Declarations are entered in source order; a later declaration of a
    name shadows nothing here, the header declares each name once.  In
    C++ a struct definition also makes its tag a type name. *)
Definition declare (e : env) (d : decl) : env :=
  match d with
  | Typedef x t => (x, resolve e t) :: e
  | StructDef tag _ _ => (tag, Tstruct tag) :: e
  | ExternVar _ _ => e
  end.

Definition env_of (ds : list decl) : env := fold_left declare ds [].

End Env.

(** The type names of the header on the [#else] branch. *)
Definition type_env : Env.env := Env.env_of (types_h false).

Definition type_of (name : string) : option ctype := Env.lookup name type_env.

(** Two declared names denote the same type. *)
Definition same_type (a b : string) : bool :=
  match type_of a, type_of b with
  | Some t, Some u => ctype_eqb t u
  | _, _ => false
  end.

(** ** Data models, sizes and layout *)

Module Layout.

(** The C data models of the targets the native libraries are built
    for: 32-bit Unix (ILP32), 64-bit Unix (LP64) and 64-bit Windows
    toolchains (LLP64).  [char] is 8 bits, [short] 16 and [int] 32 in
    all three; they differ in [long], in pointers and in [wchar_t]. *)
Inductive data_model : Type := ILP32 | LP64 | LLP64.

Definition char_bit : Z := 8.

Definition sizeof_long (dm : data_model) : Z :=
  match dm with LP64 => 8 | ILP32 | LLP64 => 4 end.

Definition sizeof_ptr (dm : data_model) : Z :=
  match dm with ILP32 => 4 | LP64 | LLP64 => 8 end.

Definition sizeof_wchar (dm : data_model) : Z :=
  match dm with LLP64 => 2 | ILP32 | LP64 => 4 end.

(** Where a struct's members lie: name, offset and size in bytes. *)
Record struct_layout : Type := StructLayout {
  sl_size : Z;
  sl_align : Z;
  sl_fields : list (string * (Z * Z))
}.

Definition layouts : Type := list (string * struct_layout).

(** [sizeof] of a resolved type, in bytes; [None] for [void] and for a
    name that was never declared.  [sizeof] of a reference is that of
    the referenced type. *)
Fixpoint sizeof (dm : data_model) (ls : layouts) (t : ctype) : option Z :=
  match t with
  | Tvoid => None
  | Tbool | Tchar | Tuchar => Some 1
  | Tshort | Tushort => Some 2
  | Tint | Tuint => Some 4
  | Tlong | Tulong => Some (sizeof_long dm)
  | Twchar => Some (sizeof_wchar dm)
  | Tnamed _ => None
  | Tptr _ => Some (sizeof_ptr dm)
  | Tref u => sizeof dm ls u
  | Tarray u n => option_map (fun s => s * Z.of_nat n) (sizeof dm ls u)
  | Tstruct tag => option_map sl_size (Env.lookup tag ls)
  end.

(** Scalars are aligned to their size, an array as its element, a
    struct as its most aligned member. *)
Fixpoint alignof (dm : data_model) (ls : layouts) (t : ctype) : option Z :=
  match t with
  | Tarray u _ => alignof dm ls u
  | Tref u => alignof dm ls u
  | Tstruct tag => option_map sl_align (Env.lookup tag ls)
  | _ => sizeof dm ls t
  end.

(** A member of reference type is stored as a pointer. *)
Definition member_size (dm : data_model) (ls : layouts) (t : ctype) : option Z :=
  match t with Tref _ => Some (sizeof_ptr dm) | _ => sizeof dm ls t end.

Definition member_align (dm : data_model) (ls : layouts) (t : ctype) : option Z :=
  match t with Tref _ => Some (sizeof_ptr dm) | _ => alignof dm ls t end.

Definition align_up (off a : Z) : Z := (off + a - 1) / a * a.

(** Members are placed in declaration order, each at the next offset
    that is a multiple of its alignment; the struct is padded at the end
    to a multiple of its own alignment, and is never empty. *)
Fixpoint place (dm : data_model) (ls : layouts) (fields : list (string * ctype))
         (off al : Z) (acc : list (string * (Z * Z))) : option struct_layout :=
  match fields with
  | [] =>
      let size := align_up off al in
      Some (StructLayout (if size =? 0 then 1 else size) al (rev acc))
  | (x, t) :: fs =>
      match member_size dm ls t, member_align dm ls t with
      | Some s, Some a =>
          let o := align_up off a in
          place dm ls fs (o + s) (Z.max al a) ((x, (o, s)) :: acc)
      | _, _ => None
      end
  end.

(** A struct with a virtual member function starts with its table
    pointer. *)
Definition layout_struct (dm : data_model) (ls : layouts)
           (fields : list (string * ctype)) (has_vptr : bool)
  : option struct_layout :=
  if has_vptr then place dm ls fields (sizeof_ptr dm) (sizeof_ptr dm) []
  else place dm ls fields 0 1 [].

(** One declaration: the name is entered, and a struct definition is laid
    out with its member types resolved at that point. *)
Definition declare (dm : data_model) (st : Env.env * layouts) (d : decl)
  : Env.env * layouts :=
  let (e, ls) := st in
  (Env.declare e d,
   match d with
   | StructDef tag fields methods =>
       match layout_struct dm ls
               (map (fun f => (fst f, Env.resolve e (snd f))) fields)
               (existsb m_virtual methods) with
       | Some l => (tag, l) :: ls
       | None => ls
       end
   | _ => ls
   end).

Definition layouts_of (dm : data_model) (ds : list decl) : layouts :=
  snd (fold_left (declare dm) ds ([], [])).

(** An integer type: signedness and width in bits. *)
Record int_type : Type := IntType { it_signed : bool; it_bits : Z }.

(** Plain [char], [wchar_t] and [bool] are left out: the signedness of
    the first two is the implementation's choice. *)
Definition signedness (t : ctype) : option bool :=
  match t with
  | Tuchar | Tushort | Tuint | Tulong => Some false
  | Tshort | Tint | Tlong => Some true
  | _ => None
  end.

Definition int_type_of (dm : data_model) (t : ctype) : option int_type :=
  match signedness t, sizeof dm [] t with
  | Some s, Some n => Some (IntType s (char_bit * n))
  | _, _ => None
  end.

End Layout.
Export Layout.

(** The struct layouts of the header on the [#else] branch. *)
Definition struct_layouts (dm : data_model) : layouts :=
  layouts_of dm (types_h false).

(** [sizeof(name)] for a type name of the header. *)
Definition sizeof_type (dm : data_model) (name : string) : option Z :=
  match type_of name with
  | Some t => sizeof dm (struct_layouts dm) t
  | None => None
  end.

(** The integer type a type name of the header stands for. *)
Definition int_type_named (dm : data_model) (name : string) : option int_type :=
  match type_of name with
  | Some t => int_type_of dm t
  | None => None
  end.

(** The members of a struct of the header: offset and size of each. *)
Definition members_of (dm : data_model) (tag : string)
  : option (list (string * (Z * Z))) :=
  option_map sl_fields (Env.lookup tag (struct_layouts dm)).

(** The declaration of a struct, as written. *)
Fixpoint find_struct (tag : string) (ds : list decl)
  : option (list (string * ctype) * list method) :=
  match ds with
  | [] => None
  | StructDef tag' fs ms :: ds' =>
      if String.eqb tag tag' then Some (fs, ms) else find_struct tag ds'
  | _ :: ds' => find_struct tag ds'
  end.

(** ** The preprocessor *)

Module Cpp.

Definition token : Type := string.

(** [#define name body] has no parameter list, [#define name(ps) body]
    has one. *)
Record macro : Type := Macro {
  mac_name : string;
  mac_params : option (list string);
  mac_body : list token
}.

Fixpoint find_macro (x : string) (ms : list macro) : option macro :=
  match ms with
  | [] => None
  | m :: ms' => if String.eqb x (mac_name m) then Some m else find_macro x ms'
  end.

(** The arguments of an invocation, read after its opening parenthesis:
    the tokens up to the matching [)], split at the commas that are not
    inside nested parentheses.  Returns the arguments and the tokens
    after the [)]. *)
Fixpoint parse_args (toks : list token) (depth : nat) (cur : list token)
         (args : list (list token)) : option (list (list token) * list token) :=
  match toks with
  | [] => None
  | t :: rest =>
      if String.eqb t ")" then
        match depth with
        | O => Some (rev (rev cur :: args), rest)
        | S d => parse_args rest d (t :: cur) args
        end
      else if String.eqb t "(" then parse_args rest (S depth) (t :: cur) args
      else if String.eqb t "," && Nat.eqb depth 0 then
        parse_args rest depth [] (rev cur :: args)
      else parse_args rest depth (t :: cur) args
  end.

(** Each parameter in the body is replaced by its argument. *)
Definition subst (ps : list string) (args : list (list token))
           (body : list token) : list token :=
  flat_map (fun t => match Env.lookup t (combine ps args) with
                     | Some a => a
                     | None => [t]
                     end) body.

Fixpoint sequence {A : Type} (l : list (option A)) : option (list A) :=
  match l with
  | [] => Some []
  | None :: _ => None
  | Some x :: l' => option_map (cons x) (sequence l')
  end.

Definition is_function_like (ms : list macro) (u : token) : bool :=
  match find_macro u ms with
  | Some m => match mac_params m with Some _ => true | None => false end
  | None => false
  end.

Definition starts_with_paren (toks : list token) : bool :=
  match toks with
  | p :: _ => String.eqb p "("
  | [] => false
  end.

(** A replacement [b] that ends in the name of a function-like macro,
    not hidden, while the text after the invocation starts with [(]:
    that name is invoked with arguments from the text that follows.
    Returns the replacement without its last token, and that token.
    A name that a nested replacement left behind because it was hidden
    there is not told apart; that needs a macro whose replacement leads
    back to its own name, and the header has none. *)
Definition pending (ms : list macro) (hide : list string)
           (b rest : list token) : option (list token * token) :=
  match rev b with
  | u :: front =>
      if is_function_like ms u && negb (existsb (String.eqb u) hide)
         && starts_with_paren rest
      then Some (rev front, u)
      else None
  | [] => None
  end.

(** Macro expansion of a token list.  A macro name is replaced by its
    body, a function-like one only when a [(] follows, with its
    arguments expanded first; the replacement is scanned again with the
    macro's own name hidden, and a function-like macro name that ends
    it goes on with the text after the invocation when that starts with
    [(], the replaced macro being available again there.  [None] when
    the fuel runs out, when an invocation is not closed, or has the
    wrong number of arguments.  The operators [#] and [##] and variable
    arguments, which the header does not use, are not read. *)
Fixpoint expand (ms : list macro) (fuel : nat) (hide : list string)
         (toks : list token) : option (list token) :=
  match fuel with
  | O => None
  | S fuel' =>
      match toks with
      | [] => Some []
      | t :: rest =>
          let keep := option_map (cons t) (expand ms fuel' hide rest) in
          if existsb (String.eqb t) hide then keep
          else
            match find_macro t ms with
            | None => keep
            | Some m =>
                match mac_params m with
                | None =>
                    match expand ms fuel' (t :: hide) (mac_body m) with
                    | Some b =>
                        match pending ms (t :: hide) b rest with
                        | Some (front, u) =>
                            option_map (app front)
                                       (expand ms fuel' hide (u :: rest))
                        | None =>
                            option_map (app b) (expand ms fuel' hide rest)
                        end
                    | None => None
                    end
                | Some ps =>
                    match rest with
                    | [] => keep
                    | p :: rest1 =>
                        if String.eqb p "(" then
                          match parse_args rest1 0 [] [] with
                          | None => None
                          | Some (args, rest2) =>
                              let args :=
                                match ps, args with
                                | [], [[]] => []
                                | _, _ => args
                                end in
                              if Nat.eqb (List.length args) (List.length ps) then
                                match sequence (map (expand ms fuel' hide) args) with
                                | None => None
                                | Some args' =>
                                    match expand ms fuel' (t :: hide)
                                                 (subst ps args' (mac_body m)) with
                                    | Some b =>
                                        match pending ms (t :: hide) b rest2 with
                                        | Some (front, u) =>
                                            option_map
                                              (app front)
                                              (expand ms fuel' hide (u :: rest2))
                                        | None =>
                                            option_map
                                              (app b)
                                              (expand ms fuel' hide rest2)
                                        end
                                    | None => None
                                    end
                                end
                              else None
                          end
                        else keep
                    end
                end
            end
      end
  end.

(** A token that is neither punctuation of an invocation nor a macro
    name: an ordinary identifier, as a method name is. *)
Definition plain (ms : list macro) (t : token) : bool :=
  negb (existsb (String.eqb t) ["("; ")"; ","])
  && match find_macro t ms with None => true | Some _ => false end.

(** *** Integer literals *)

Definition digit_value (c : ascii) : option Z :=
  let n := Z.of_nat (nat_of_ascii c) in
  if (48 <=? n) && (n <=? 57) then Some (n - 48)
  else if (97 <=? n) && (n <=? 102) then Some (n - 87)
  else if (65 <=? n) && (n <=? 70) then Some (n - 55)
  else None.

Fixpoint digits (base : Z) (s : string) (acc : Z) : option Z :=
  match s with
  | EmptyString => Some acc
  | String c s' =>
      match digit_value c with
      | Some d => if d <? base then digits base s' (acc * base + d) else None
      | None => None
      end
  end.

(** The value of an integer literal without suffix: [0x] or [0X] starts
    a hexadecimal one, another leading [0] an octal one. *)
Definition int_literal (s : string) : option Z :=
  match s with
  | EmptyString => None
  | String c rest =>
      if Ascii.eqb c "0" then
        match rest with
        | String x (String d r) =>
            if Ascii.eqb x "x" || Ascii.eqb x "X" then digits 16 (String d r) 0
            else digits 8 rest 0
        | _ => digits 8 rest 0
        end
      else digits 10 s 0
  end.

End Cpp.
Export Cpp.

(** The [#define] lines of the header, in source order: line 20, then
    line 25 with [_WINDOWS] defined, lines 29-34 and 86-88 without.
    What [<objbase.h>] defines on the first branch is not part of the
    header. *)
Definition macros (windows : bool) : list macro :=
  Macro "__TYPES_H" None [] ::
  if windows then
    [ Macro "DLLEXPORT" None ["__declspec"; "("; "dllexport"; ")"] ]
  else
    [ Macro "STDAPICALLTYPE" None [];
      Macro "STDMETHODCALLTYPE" None [];
      Macro "STDMETHODIMP" None ["int"];
      Macro "STDMETHOD" (Some ["name"]) ["HRESULT"; "STDMETHODCALLTYPE"; "name"];
      Macro "STDMETHOD_" (Some ["type"; "name"])
            ["type"; "STDMETHODCALLTYPE"; "name"];
      Macro "DLLEXPORT" None [];
      Macro "S_OK" None ["0"];
      Macro "S_FALSE" None ["1"];
      Macro "E_NOINTERFACE" None ["0x80004002"] ].

Definition preprocess (windows : bool) (fuel : nat) (toks : list token)
  : option (list token) :=
  expand (macros windows) fuel [] toks.

(** The value of a macro that stands for one integer literal. *)
Definition macro_value (windows : bool) (fuel : nat) (name : string) : option Z :=
  match preprocess windows fuel [name] with
  | Some [t] => int_literal t
  | _ => None
  end.

(** ** Integer conversions *)

(** The value after conversion to an integer type: reduced modulo
    [2^bits], and for a signed type read in two's complement. *)
Definition convert (it : int_type) (v : Z) : Z :=
  let m := 2 ^ it_bits it in
  let r := v mod m in
  if it_signed it && (2 ^ (it_bits it - 1) <=? r) then r - m else r.

(** A value held in a variable of type [HRESULT]. *)
Definition as_HRESULT (dm : data_model) (v : Z) : option Z :=
  option_map (fun it => convert it v) (int_type_named dm "HRESULT").

(** The high bit of a value of an integer type. *)
Definition high_bit (it : int_type) (v : Z) : bool :=
  Z.testbit v (it_bits it - 1).

(** [int] to [bool]: everything but zero is [true]. *)
Definition bool_of_int (z : Z) : bool := negb (z =? 0).

(** ** Objects in memory and the GUID comparison *)

Module Mem.

Definition byte_value (b : byte) : Z := Z.of_N (Byte.to_N b).

(** [memcmp(s1, s2, n)]: the difference of the first pair of bytes that
    differ among the first [n], read as [unsigned char], and zero when
    there is none.  The lists are the memory from the two addresses on;
    past their end there is nothing to compare. *)
Fixpoint memcmp (s1 s2 : list byte) (n : nat) : Z :=
  match n, s1, s2 with
  | S n', x :: s1', y :: s2' =>
      if Byte.eqb x y then memcmp s1' s2' n'
      else byte_value x - byte_value y
  | _, _, _ => 0
  end.

Definition byte_of_Z (v : Z) : byte :=
  match Byte.of_N (Z.to_N (v mod 256)) with
  | Some b => b
  | None => x00
  end.

(** The [n] bytes of an integer, least significant first. *)
Fixpoint le_bytes (n : nat) (v : Z) : list byte :=
  match n with
  | O => []
  | S n' => byte_of_Z v :: le_bytes n' (v / 256)
  end.

(** [src] written over [dst] from offset [off] on. *)
Fixpoint write (off : nat) (src dst : list byte) : list byte :=
  match off, dst with
  | _, [] => []
  | S off', d :: dst' => d :: write off' src dst'
  | O, d :: dst' =>
      match src with
      | [] => dst
      | b :: src' => b :: write O src' dst'
      end
  end.

End Mem.
Export Mem.

(** A value of [struct _GUID], member by member (lines 53-59). *)
Record GUID : Type := MkGUID {
  Data1 : Z;
  Data2 : Z;
  Data3 : Z;
  Data4 : list byte
}.

(** [sizeof(GUID)] as a byte count. *)
Definition sizeof_GUID (dm : data_model) : nat :=
  match sizeof_type dm "GUID" with
  | Some n => Z.to_nat n
  | None => O
  end.

Definition member_bytes (g : GUID) (name : string) (size : nat) : list byte :=
  if String.eqb name "Data1" then le_bytes size (Data1 g)
  else if String.eqb name "Data2" then le_bytes size (Data2 g)
  else if String.eqb name "Data3" then le_bytes size (Data3 g)
  else if String.eqb name "Data4" then firstn size (Data4 g ++ repeat x00 size)%list
  else [].

(** The object a [GUID] value occupies on a little-endian target: each
    member at its offset, over padding bytes [pad]. *)
Definition object_of (dm : data_model) (pad : byte) (g : GUID) : list byte :=
  match members_of dm "_GUID" with
  | Some ms =>
      fold_left (fun obj m =>
                   write (Z.to_nat (fst (snd m)))
                         (member_bytes g (fst m) (Z.to_nat (snd (snd m)))) obj)
                ms (repeat pad (sizeof_GUID dm))
  | None => []
  end.

(** Lines 61-63:
    [inline bool operator == (const GUID & a, const GUID & b)
       { return memcmp(&a, &b, sizeof(a)); }]
    The two references are the objects' bytes; the [int] that [memcmp]
    returns is converted to the [bool] result. *)
Definition operator_eq (dm : data_model) (a b : list byte) : bool :=
  bool_of_int (memcmp a b (sizeof_GUID dm)).

(** The all-zero identifier and the identifier of [IUnknown],
    [{00000000-0000-0000-C000-000000000046}]. *)
Definition GUID_NULL : GUID :=
  MkGUID 0 0 0 [x00; x00; x00; x00; x00; x00; x00; x00].

Definition GUID_IUnknown : GUID :=
  MkGUID 0 0 0 [xc0; x00; x00; x00; x00; x00; x00; x46].

(** ** The properties under study, as predicates *)

(** [sizeof(GUID)] is 16, and the struct is a 4-byte member, two 2-byte
    members and an 8-byte array, in that order. *)
Definition GUID_is_16_bytes (dm : data_model) : Prop :=
  sizeof_type dm "GUID" = Some 16 /\
  members_of dm "_GUID" =
    Some [("Data1", (0, 4)); ("Data2", (4, 2)); ("Data3", (6, 2));
          ("Data4", (8, 8))].

(** The 32-bit integer names that are spelled with [long]. *)
Definition long_names_are_32_bit (dm : data_model) : Prop :=
  int_type_named dm "UINT" = Some (IntType false 32) /\
  int_type_named dm "DWORD" = Some (IntType false 32) /\
  int_type_named dm "ULONG" = Some (IntType false 32) /\
  int_type_named dm "LONG" = Some (IntType true 32).

(** All five names of the 32-bit row. *)
Definition int32_names_are_32_bit (dm : data_model) : Prop :=
  long_names_are_32_bit dm /\
  int_type_named dm "INT" = Some (IntType true 32).

(** A status constant of the header held in an [HRESULT]. *)
Definition constant_as_HRESULT (dm : data_model) (fuel : nat) (name : string)
  : option Z :=
  match macro_value false fuel name with
  | Some v => as_HRESULT dm v
  | None => None
  end.

(** The member functions of a struct of the header, and what makes the
    signature of one. *)
Definition struct_methods (tag : string) : option (list method) :=
  option_map snd (find_struct tag (types_h false)).

Definition struct_members (tag : string) : option (list (string * ctype)) :=
  option_map fst (find_struct tag (types_h false)).

Definition signature (m : method) : string * ctype * list ctype :=
  (m_name m, m_ret m, m_params m).

Definition pure_virtual (m : method) : bool := m_virtual m && m_pure m.

(** ** The header as a whole *)

(** A resolved type: no typedef name is left in it. *)
Fixpoint closed (t : ctype) : bool :=
  match t with
  | Tnamed _ => false
  | Tptr u => closed u
  | Tref u => closed u
  | Tarray u _ => closed u
  | _ => true
  end.

(** Every name a type expression uses is among the type names [scope]. *)
Fixpoint well_scoped (scope : list string) (t : ctype) : bool :=
  match t with
  | Tnamed x => existsb (String.eqb x) scope
  | Tstruct tag => existsb (String.eqb tag) scope
  | Tptr u => well_scoped scope u
  | Tref u => well_scoped scope u
  | Tarray u _ => well_scoped scope u
  | _ => true
  end.

(** The name a declaration introduces, and the types it mentions. *)
Definition declared_name (d : decl) : string :=
  match d with
  | Typedef x _ => x
  | StructDef tag _ _ => tag
  | ExternVar x _ => x
  end.

Definition uses (d : decl) : list ctype :=
  match d with
  | Typedef _ t => [t]
  | StructDef _ fs ms =>
      (map snd fs ++ flat_map (fun m => m_ret m :: m_params m) ms)%list
  | ExternVar _ t => [t]
  end.

(** The type names in scope after a declaration.  [typedef struct tag
    { ... } name;] brings the tag into scope for its own typedef. *)
Definition scope_after (scope : list string) (d : decl) : list string :=
  match d with
  | Typedef x _ => x :: scope
  | StructDef tag _ _ => tag :: scope
  | ExternVar _ _ => scope
  end.

(** Each declaration mentions only type names declared above it. *)
Fixpoint declared_before_use (scope : list string) (ds : list decl) : bool :=
  match ds with
  | [] => true
  | d :: ds' =>
      forallb (well_scoped scope) (uses d)
      && declared_before_use (scope_after scope d) ds'
  end.

(** No string occurs twice. *)
Fixpoint distinct (l : list string) : bool :=
  match l with
  | [] => true
  | x :: l' => negb (existsb (String.eqb x) l') && distinct l'
  end.

(** A type with a size, and the size is positive. *)
Definition complete (dm : data_model) (t : ctype) : bool :=
  match sizeof dm (struct_layouts dm) t with
  | Some n => 0 <? n
  | None => false
  end.

Definition is_defined (x : string) (ms : list macro) : bool :=
  match find_macro x ms with Some _ => true | None => false end.

(** One [#include] of the header into a translation unit that has the
    macros [ms] defined and the declarations [ds] made.  Lines 19-20
    and 92: nothing happens when [__TYPES_H] is defined, and else it
    becomes defined; line 22: the branch is chosen by whether
    [_WINDOWS] is defined.  The newest definitions come first, where
    [find_macro] looks first. *)
Definition include_types_h (st : list macro * list decl)
  : list macro * list decl :=
  let (ms, ds) := st in
  if is_defined "__TYPES_H" ms then st
  else
    let w := is_defined "_WINDOWS" ms in
    ((macros w ++ ms)%list, (ds ++ types_h w)%list).

(** The type a one-token type specifier stands for: a built-in type or
    a type name of the header. *)
Definition specifier_type (t : token) : option ctype :=
  if String.eqb t "void" then Some Tvoid
  else if String.eqb t "bool" then Some Tbool
  else if String.eqb t "char" then Some Tchar
  else if String.eqb t "short" then Some Tshort
  else if String.eqb t "int" then Some Tint
  else if String.eqb t "long" then Some Tlong
  else if String.eqb t "wchar_t" then Some Twchar
  else type_of t.

(** ** Reading members back *)

(** The integer that bytes hold, least significant first. *)
Fixpoint le_value (bs : list byte) : Z :=
  match bs with
  | [] => 0
  | b :: bs' => byte_value b + 256 * le_value bs'
  end.

(** A [GUID] value whose members fit their types on the target: 
    [Data1] an [unsigned long], [Data2] and [Data3] 16 bits, [Data4]
    eight bytes. *)
Definition fits (dm : data_model) (g : GUID) : Prop :=
  0 <= Data1 g < 2 ^ (char_bit * sizeof_long dm) /\
  0 <= Data2 g < 2 ^ 16 /\
  0 <= Data3 g < 2 ^ 16 /\
  List.length (Data4 g) = 8%nat.

(** The bytes after the last member of a [GUID] object. *)
Definition trailing_padding (dm : data_model) : nat :=
  (sizeof_GUID dm - (Z.to_nat (sizeof_long dm) + 12))%nat.

(** ** Member function declarations *)

(** What a compiler accepts as the declaration of a member function,
    for a struct without base classes as [IUnknown] at lines 78-82 is,
    and for declarations of the shape those lines have:
    [virtual] if any, a return type, the name, the parameter list, a
    pure-specifier [= 0] if any, and [;].  A type is one specifier the
    header knows, followed by [*]s and at most one [&]; a parameter may
    be named, and no two parameters share a name.  The pure-specifier is
    allowed on a virtual function only. *)

Definition is_letter (c : ascii) : bool :=
  let n := nat_of_ascii c in
  ((65 <=? n) && (n <=? 90) || (97 <=? n) && (n <=? 122) || (n =? 95))%nat.

Definition is_digit (c : ascii) : bool :=
  let n := nat_of_ascii c in ((48 <=? n) && (n <=? 57))%nat.

Fixpoint all_chars (p : ascii -> bool) (s : string) : bool :=
  match s with
  | EmptyString => true
  | String c s' => p c && all_chars p s'
  end.

Definition is_identifier (t : token) : bool :=
  match t with
  | EmptyString => false
  | String c s => is_letter c && all_chars (fun d => is_letter d || is_digit d) s
  end.

Definition keywords : list string :=
  [ "asm"; "auto"; "bool"; "break"; "case"; "catch"; "char"; "class";
    "const"; "const_cast"; "continue"; "default"; "delete"; "do"; "double";
    "dynamic_cast"; "else"; "enum"; "explicit"; "export"; "extern"; "false";
    "float"; "for"; "friend"; "goto"; "if"; "inline"; "int"; "long";
    "mutable"; "namespace"; "new"; "operator"; "private"; "protected";
    "public"; "register"; "reinterpret_cast"; "return"; "short"; "signed";
    "sizeof"; "static"; "static_cast"; "struct"; "switch"; "template";
    "this"; "throw"; "true"; "try"; "typedef"; "typeid"; "typename";
    "union"; "unsigned"; "using"; "virtual"; "void"; "volatile"; "wchar_t";
    "while" ].

Definition is_type (t : token) : bool :=
  match specifier_type t with Some _ => true | None => false end.

(** A name that can be declared: an identifier that is neither a
    keyword nor a type name. *)
Definition is_name (t : token) : bool :=
  is_identifier t && negb (existsb (String.eqb t) keywords)
  && negb (is_type t).

(** Where the reading of a parameter list stands. *)
Inductive param_state : Type :=
| ExpectType
| AfterType (bare_void : bool)
| AfterRef
| AfterName.

(** The parameters after the first token of a non-empty list; [names]
    are the parameter names read so far.  Returns the tokens after the
    closing parenthesis. *)
Fixpoint parameters (st : param_state) (names : list string)
         (toks : list token) : option (list token) :=
  match toks with
  | [] => None
  | t :: r =>
      match st with
      | ExpectType =>
          if is_type t then parameters (AfterType (String.eqb t "void")) names r
          else None
      | AfterType bare_void =>
          if String.eqb t "*" then parameters (AfterType false) names r
          else if bare_void then None
          else if String.eqb t "&" then parameters AfterRef names r
          else if String.eqb t "," then parameters ExpectType names r
          else if String.eqb t ")" then Some r
          else if is_name t && negb (existsb (String.eqb t) names)
               then parameters AfterName (t :: names) r
          else None
      | AfterRef =>
          if String.eqb t "," then parameters ExpectType names r
          else if String.eqb t ")" then Some r
          else if is_name t && negb (existsb (String.eqb t) names)
               then parameters AfterName (t :: names) r
          else None
      | AfterName =>
          if String.eqb t "," then parameters ExpectType names r
          else if String.eqb t ")" then Some r
          else None
      end
  end.

(** [()], [(void)] or a list of parameters. *)
Definition parameter_list (toks : list token) : option (list token) :=
  match toks with
  | p :: q :: r =>
      if negb (String.eqb p "(") then None
      else if String.eqb q ")" then Some r
      else
        match r with
        | c :: r' =>
            if String.eqb q "void" && String.eqb c ")" then Some r'
            else parameters ExpectType [] (q :: r)
        | [] => None
        end
  | _ => None
  end.

(** The [*]s and the [&] between a return type and the name. *)
Fixpoint skip_stars (toks : list token) : list token :=
  match toks with
  | t :: r => if String.eqb t "*" then skip_stars r else toks
  | [] => []
  end.

Definition skip_ref (toks : list token) : list token :=
  match toks with
  | t :: r => if String.eqb t "&" then r else toks
  | [] => []
  end.

Fixpoint tokens_eqb (a b : list token) : bool :=
  match a, b with
  | [], [] => true
  | x :: a', y :: b' => String.eqb x y && tokens_eqb a' b'
  | _, _ => false
  end.

Definition accepts_method (toks : list token) : bool :=
  let virt :=
    match toks with t :: _ => String.eqb t "virtual" | [] => false end in
  match (if virt then tl toks else toks) with
  | ty :: r =>
      if is_type ty then
        match (if String.eqb ty "void" then skip_stars r
               else skip_ref (skip_stars r)) with
        | name :: r' =>
            if is_name name then
              match parameter_list r' with
              | Some tail =>
                  tokens_eqb tail [";"]
                  || (virt && tokens_eqb tail ["="; "0"; ";"])
              | None => false
              end
            else false
        | [] => false
        end
      else false
  | [] => false
  end.





(** The member functions of [IUnknown] as lines 79-81 write them, and
    the first of them written in COM style with [STDMETHOD]. *)
Definition IUnknown_lines : list (list token) :=
  [ ["virtual"; "HRESULT"; "QueryInterface";
     "("; "REFIID"; ","; "void"; "*"; "*"; "out"; ")"; "="; "0"; ";"];
    ["virtual"; "ULONG"; "AddRef"; "("; ")"; "="; "0"; ";"];
    ["virtual"; "ULONG"; "Release"; "("; ")"; "="; "0"; ";"] ].


(** * Properties *)

(** Closed goals about the header are settled by evaluation. *)
Ltac by_computation := vm_compute; reflexivity.

(** ** Helper lemmas *)

Lemma ctype_eqb_eq (a b : ctype) : ctype_eqb a b = true <-> a = b.
Proof.
  revert b; induction a; destruct b; simpl; split; intro H;
    try reflexivity; try discriminate; try congruence.
  - apply String.eqb_eq in H; congruence.
  - inversion H; apply String.eqb_refl.
  - apply IHa in H; congruence.
  - inversion H; subst; apply IHa; reflexivity.
  - apply IHa in H; congruence.
  - inversion H; subst; apply IHa; reflexivity.
  - apply andb_true_iff in H as [H1 H2].
    apply IHa in H1; apply Nat.eqb_eq in H2; congruence.
  - inversion H; subst; apply andb_true_iff; split;
      [apply IHa; reflexivity | apply Nat.eqb_refl].
  - apply String.eqb_eq in H; congruence.
  - inversion H; apply String.eqb_refl.
Qed.

Lemma same_type_sound (a b : string) :
  same_type a b = true ->
  exists t, type_of a = Some t /\ type_of b = Some t.
Proof.
  unfold same_type.
  destruct (type_of a) as [t|]; [|discriminate].
  destruct (type_of b) as [u|]; [|discriminate].
  intro H; apply ctype_eqb_eq in H; subst; eauto.
Qed.

Lemma byte_eqb_refl (x : byte) : Byte.eqb x x = true.
Proof. apply Byte.byte_dec_lb; reflexivity. Qed.

Lemma byte_value_inj (x y : byte) : byte_value x = byte_value y -> x = y.
Proof.
  unfold byte_value; intro H.
  apply N2Z.inj in H.
  pose proof (Byte.of_to_N x) as Hx.
  rewrite H, Byte.of_to_N in Hx; congruence.
Qed.

(** [memcmp] of a block with itself is zero. *)
Lemma memcmp_refl (s : list byte) (n : nat) : memcmp s s n = 0.
Proof.
  revert s; induction n as [|n IH]; intros [|x s]; simpl; try reflexivity.
  rewrite byte_eqb_refl; apply IH.
Qed.

(** [memcmp] is zero exactly when the first [n] bytes agree. *)
Lemma memcmp_zero_iff (n : nat) (s1 s2 : list byte) :
  (n <= List.length s1)%nat -> (n <= List.length s2)%nat ->
  memcmp s1 s2 n = 0 <-> firstn n s1 = firstn n s2.
Proof.
  revert s1 s2; induction n as [|n IH]; intros s1 s2 H1 H2.
  - destruct s1, s2; simpl; split; reflexivity.
  - destruct s1 as [|x s1]; [simpl in H1; lia|].
    destruct s2 as [|y s2]; [simpl in H2; lia|].
    simpl in H1, H2; simpl.
    destruct (Byte.eqb x y) eqn:E.
    + apply Byte.byte_dec_bl in E; subst y.
      rewrite IH by lia.
      split; intro H; [f_equal; exact H | inversion H; reflexivity].
    + apply Byte.eqb_false in E.
      split; intro H.
      * exfalso; apply E, byte_value_inj; lia.
      * inversion H; contradiction.
Qed.

(** What the operator computes on two objects of the size of a [GUID]:
    [true] exactly when they differ. *)
Lemma operator_eq_true_iff (dm : data_model) (a b : list byte) :
  List.length a = sizeof_GUID dm -> List.length b = sizeof_GUID dm ->
  operator_eq dm a b = true <-> a <> b.
Proof.
  intros Ha Hb; unfold operator_eq, bool_of_int.
  rewrite negb_true_iff, Z.eqb_neq, memcmp_zero_iff by lia.
  rewrite <- Ha at 1; rewrite <- Hb, !firstn_all; tauto.
Qed.

Lemma write_length (off : nat) (src dst : list byte) :
  List.length (write off src dst) = List.length dst.
Proof.
  revert off src; induction dst as [|d dst IH]; intros off src.
  - destruct off; reflexivity.
  - destruct off as [|off]; simpl.
    + destruct src as [|b src]; simpl; [reflexivity | rewrite IH; reflexivity].
    + rewrite IH; reflexivity.
Qed.

(** The object of a [GUID] value has the size of the type. *)
Lemma object_of_length (dm : data_model) (pad : byte) (g : GUID) :
  List.length (object_of dm pad g) = sizeof_GUID dm.
Proof.
  unfold object_of.
  destruct (members_of dm "_GUID") as [ms|] eqn:E.
  - generalize (repeat_length pad (sizeof_GUID dm)).
    generalize (repeat pad (sizeof_GUID dm)) as obj.
    clear E; induction ms as [|m ms IH]; intros obj H; simpl.
    + exact H.
    + apply IH; rewrite write_length; exact H.
  - destruct dm; vm_compute in E; discriminate E.
Qed.

(** ** The GUID comparison *)

(** C1, as the code has it: the operator does not test equality.  A
    [GUID] compared with itself gives [false], whatever the target, the
    padding and the value, because [memcmp] returns zero there and zero
    converts to [false]; and two identifiers that differ, the identifier
    of [IUnknown] and the all-zero one, compare [true]. *)
Theorem operator_eq_is_inverted :
  (forall (dm : data_model) (pad : byte) (g : GUID),
      operator_eq dm (object_of dm pad g) (object_of dm pad g) = false) /\
  operator_eq ILP32 (object_of ILP32 x00 GUID_IUnknown)
                    (object_of ILP32 x00 GUID_IUnknown) = false /\
  operator_eq ILP32 (object_of ILP32 x00 GUID_IUnknown)
                    (object_of ILP32 x00 GUID_NULL) = true.
Proof.
  split; [|split].
  - intros dm pad g; unfold operator_eq; rewrite memcmp_refl; reflexivity.
  - reflexivity.
  - reflexivity.
Qed.

(** ** Size and layout of GUID *)

(** C2, as the code has it on LP64: [sizeof(GUID)] is 24, not 16.
    [Data1] is a [DWORD], which line 43 spells [unsigned long], so it
    takes 8 bytes there; the members end at offset 20 and the struct is
    padded to 24.  The 16-byte identifier the struct is named after
    comes out only where [long] is 4 bytes. *)
Lemma GUID_is_24_bytes_on_LP64 :
  sizeof_type LP64 "GUID" = Some 24 /\
  members_of LP64 "_GUID" =
    Some [("Data1", (0, 8)); ("Data2", (8, 2)); ("Data3", (10, 2));
          ("Data4", (12, 8))] /\
  ~ GUID_is_16_bytes LP64.
Proof.
  split; [by_computation|]; split; [by_computation|].
  intros [H _]; vm_compute in H; discriminate H.
Qed.

(** The targets that get it right: where [long] is 4 bytes,
    [sizeof(GUID)] is 16 and the struct is a 4-byte member at offset 0,
    2-byte members at offsets 4 and 6 and an 8-byte array at offset 8. *)
Theorem GUID_is_16_bytes_with_32_bit_long (dm : data_model) :
  sizeof_long dm = 4 -> GUID_is_16_bytes dm.
Proof.
  destruct dm; intro H; try discriminate H; split; by_computation.
Qed.

Lemma GUID_is_16_bytes_with_32_bit_long_witness :
  sizeof_long ILP32 = 4 /\ GUID_is_16_bytes ILP32.
Proof.
  split; [reflexivity|].
  apply (GUID_is_16_bytes_with_32_bit_long ILP32); reflexivity.
Defined.

(** ** The constants *)

(** C3: the three status constants expand to literals of value 0, 1
    and 0x80004002, with any fuel from 3 on. *)
Theorem status_constant_values (k : nat) :
  macro_value false (3 + k) "S_OK" = Some 0 /\
  macro_value false (3 + k) "S_FALSE" = Some 1 /\
  macro_value false (3 + k) "E_NOINTERFACE" = Some 0x80004002.
Proof. repeat split; reflexivity. Qed.

(** ** Integer widths *)

(** C4, as the code has it on LP64: [UINT], [DWORD], [ULONG] and
    [LONG] are 64 bits wide, not 32.  Lines 36, 40, 41 and 43 spell them
    with [long], which is 8 bytes there. *)
Lemma long_names_are_64_bit_on_LP64 :
  int_type_named LP64 "UINT" = Some (IntType false 64) /\
  int_type_named LP64 "DWORD" = Some (IntType false 64) /\
  int_type_named LP64 "ULONG" = Some (IntType false 64) /\
  int_type_named LP64 "LONG" = Some (IntType true 64) /\
  ~ int32_names_are_32_bit LP64.
Proof.
  repeat (split; [by_computation|]).
  intros [[H _] _]; vm_compute in H; discriminate H.
Qed.

(** The targets that get it right: [INT] is a signed 32-bit type on
    every target, and where [long] is 4 bytes [UINT], [DWORD] and
    [ULONG] are unsigned 32-bit types and [LONG] a signed one. *)
Theorem int32_names_with_32_bit_long (dm : data_model) :
  int_type_named dm "INT" = Some (IntType true 32) /\
  (sizeof_long dm = 4 -> int32_names_are_32_bit dm).
Proof.
  split; [destruct dm; by_computation|].
  destruct dm; intro H; try discriminate H; repeat split; by_computation.
Qed.

Lemma int32_names_with_32_bit_long_witness :
  sizeof_long ILP32 = 4 /\ int32_names_are_32_bit ILP32.
Proof.
  split; [reflexivity|].
  apply (proj2 (int32_names_with_32_bit_long ILP32)); reflexivity.
Defined.

(** The names beside them that are spelled with [int] stay 32 bits
    wide on LP64: [INT] next to [UINT], [HRESULT] next to [SCODE]. *)
Lemma int_names_are_32_bit_on_LP64 :
  int_type_named LP64 "INT" = Some (IntType true 32) /\
  int_type_named LP64 "UINT" = Some (IntType false 64) /\
  int_type_named LP64 "HRESULT" = Some (IntType true 32) /\
  int_type_named LP64 "SCODE" = Some (IntType true 64).
Proof. repeat split; by_computation. Qed.

(** C5: [WORD], [USHORT] and [VARTYPE] are unsigned 16-bit types,
    [SHORT] a signed 16-bit type and [BYTE] an unsigned 8-bit type, on
    every target. *)
Theorem short_and_byte_names (dm : data_model) :
  int_type_named dm "WORD" = Some (IntType false 16) /\
  int_type_named dm "USHORT" = Some (IntType false 16) /\
  int_type_named dm "VARTYPE" = Some (IntType false 16) /\
  int_type_named dm "SHORT" = Some (IntType true 16) /\
  int_type_named dm "BYTE" = Some (IntType false 8).
Proof. destruct dm; repeat split; by_computation. Qed.

(** C6: [HRESULT] is a signed 32-bit type; [E_NOINTERFACE] held in one
    is negative, with bit 31 set, while [S_OK] and [S_FALSE] are held as
    0 and 1. *)
Theorem HRESULT_sign_convention (dm : data_model) (k : nat) :
  int_type_named dm "HRESULT" = Some (IntType true 32) /\
  (exists hr, constant_as_HRESULT dm (3 + k) "E_NOINTERFACE" = Some hr /\
              hr < 0 /\ high_bit (IntType true 32) hr = true) /\
  (exists hr, constant_as_HRESULT dm (3 + k) "S_OK" = Some hr /\
              hr = 0 /\ high_bit (IntType true 32) hr = false) /\
  (exists hr, constant_as_HRESULT dm (3 + k) "S_FALSE" = Some hr /\
              0 < hr /\ high_bit (IntType true 32) hr = false).
Proof.
  split; [destruct dm; by_computation|].
  split; [|split].
  - exists (-2147467262); destruct dm; repeat split; by_computation.
  - exists 0; destruct dm; repeat split; by_computation.
  - exists 1; destruct dm; repeat split; by_computation.
Qed.

(** ** Aliases *)

(** C7: each alias resolves to the very type of its target. *)
Theorem aliases_denote_their_targets :
  same_type "LCID" "DWORD" = true /\
  same_type "SCODE" "LONG" = true /\
  same_type "IID" "GUID" = true /\
  same_type "TCHAR" "WCHAR" = true /\
  same_type "OLECHAR" "WCHAR" = true.
Proof. repeat split; by_computation. Qed.

(** ** IUnknown *)

(** C8: [IUnknown] has no data member and exactly three member
    functions, all pure virtual: [QueryInterface], taking a [REFIID]
    and a pointer to pointer to [void] and returning [HRESULT], and
    [AddRef] and [Release], taking nothing and returning [ULONG]. *)
Theorem IUnknown_operations :
  struct_members "IUnknown" = Some [] /\
  exists ms,
    struct_methods "IUnknown" = Some ms /\
    List.length ms = 3%nat /\
    forallb pure_virtual ms = true /\
    map signature ms =
      [ ("QueryInterface", Tnamed "HRESULT",
         [Tnamed "REFIID"; Tptr (Tptr Tvoid)]);
        ("AddRef", Tnamed "ULONG", []);
        ("Release", Tnamed "ULONG", []) ] /\
    type_of "HRESULT" = Some Tint /\
    type_of "ULONG" = Some Tulong /\
    type_of "REFIID" = option_map Tref (type_of "IID").
Proof.
  split; [by_computation|].
  eexists; split; [reflexivity|]; repeat split; by_computation.
Qed.

(** ** LPWSTR *)

(** C10: [LPWSTR] is a pointer to plain [char], one byte of 8 bits,
    and not a pointer to what [WCHAR] is, [wchar_t], which is wider on
    every target. *)
Theorem LPWSTR_is_narrow :
  type_of "LPWSTR" = Some (Tptr Tchar) /\
  type_of "WCHAR" = Some Twchar /\
  type_of "LPWSTR" <> option_map Tptr (type_of "WCHAR") /\
  forall dm : data_model,
    sizeof dm (struct_layouts dm) Tchar = Some 1 /\
    char_bit = 8 /\
    exists n, sizeof_type dm "WCHAR" = Some n /\ 1 < n.
Proof.
  split; [by_computation|]; split; [by_computation|]; split.
  - intro H; vm_compute in H; discriminate H.
  - intro dm; split; [reflexivity|]; split; [reflexivity|].
    destruct dm; eexists; (split; [by_computation | lia]).
Qed.

(** ** Macro expansion, step by step *)

Lemma plain_spec (ms : list macro) (t : token) :
  plain ms t = true ->
  find_macro t ms = None /\
  String.eqb t "(" = false /\ String.eqb t ")" = false /\
  String.eqb t "," = false.
Proof.
  unfold plain; simpl existsb.
  rewrite andb_true_iff, negb_true_iff, !orb_false_iff.
  intros [(A & B & C & _) D].
  destruct (find_macro t ms); [discriminate D | auto].
Qed.

Lemma expand_nil (ms : list macro) (f : nat) (hide : list string) :
  expand ms (S f) hide [] = Some [].
Proof. reflexivity. Qed.

(** A token that names no macro is kept. *)
Lemma expand_keep (ms : list macro) (f : nat) (hide : list string)
      (t : token) (rest : list token) :
  find_macro t ms = None ->
  expand ms (S f) hide (t :: rest) =
  option_map (cons t) (expand ms f hide rest).
Proof.
  intro H; cbn [expand]; rewrite H.
  destruct (existsb (String.eqb t) hide); reflexivity.
Qed.

Lemma pending_nil (ms : list macro) (hide : list string) (rest : list token) :
  pending ms hide [] rest = None.
Proof. reflexivity. Qed.

(** A replacement that ends in a token naming no macro stops there. *)
Lemma pending_plain (ms : list macro) (hide : list string)
      (front rest : list token) (u : token) :
  find_macro u ms = None -> pending ms hide (front ++ [u]) rest = None.
Proof.
  intro H; unfold pending; rewrite rev_app_distr; cbn [rev app].
  unfold is_function_like; rewrite H; reflexivity.
Qed.

(** A macro without parameters is replaced by its expanded body. *)
Lemma expand_object (ms : list macro) (f : nat) (hide : list string)
      (t : token) (rest : list token) (m : macro) (b : list token) :
  existsb (String.eqb t) hide = false ->
  find_macro t ms = Some m ->
  mac_params m = None ->
  expand ms f (t :: hide) (mac_body m) = Some b ->
  pending ms (t :: hide) b rest = None ->
  expand ms (S f) hide (t :: rest) =
  option_map (app b) (expand ms f hide rest).
Proof.
  intros Hh Hm Hp Hb Hq; cbn [expand]; rewrite Hh, Hm, Hp, Hb, Hq; reflexivity.
Qed.

(** An invocation of a macro with one parameter. *)
Lemma expand_call1 (ms : list macro) (f : nat) (hide : list string)
      (t : token) (rest rest2 : list token) (m : macro) (p : string)
      (arg arg' b : list token) :
  existsb (String.eqb t) hide = false ->
  find_macro t ms = Some m ->
  mac_params m = Some [p] ->
  parse_args rest 0 [] [] = Some ([arg], rest2) ->
  expand ms f hide arg = Some arg' ->
  expand ms f (t :: hide) (subst [p] [arg'] (mac_body m)) = Some b ->
  pending ms (t :: hide) b rest2 = None ->
  expand ms (S f) hide (t :: "(" :: rest) =
  option_map (app b) (expand ms f hide rest2).
Proof.
  intros Hh Hm Hp Ha He Hb Hq; cbn [expand]; rewrite Hh, Hm, Hp.
  cbn [String.eqb Ascii.eqb Bool.eqb]; rewrite Ha.
  cbn [List.length Nat.eqb map sequence]; rewrite He.
  cbn [option_map]; rewrite Hb, Hq; reflexivity.
Qed.

Lemma parse_one_plain_arg (name : token) (rest : list token) :
  String.eqb name "(" = false -> String.eqb name ")" = false ->
  String.eqb name "," = false ->
  parse_args (name :: ")" :: rest) 0 [] [] = Some ([[name]], rest).
Proof.
  intros A B C; cbn [parse_args]; rewrite A, B, C; reflexivity.
Qed.

(** One plain token alone. *)
Lemma expand_one_plain (ms : list macro) (f : nat) (hide : list string)
      (t : token) :
  find_macro t ms = None -> expand ms (S (S f)) hide [t] = Some [t].
Proof. intro H; rewrite expand_keep by exact H; reflexivity. Qed.

(** The replacement of [STDMETHOD] and of [STDMETHOD_] after the
    arguments are put in: [STDMETHODCALLTYPE] goes, the rest stays. *)
Lemma expand_method_body (hide : list string) (a c : token) (k : nat) :
  existsb (String.eqb "STDMETHODCALLTYPE") hide = false ->
  find_macro a (macros false) = None ->
  find_macro c (macros false) = None ->
  expand (macros false) (S (S (S (S k)))) hide [a; "STDMETHODCALLTYPE"; c] =
  Some [a; c].
Proof.
  intros Hh Ha Hc.
  rewrite expand_keep by exact Ha.
  rewrite (expand_object _ _ _ "STDMETHODCALLTYPE" [c]
             (Macro "STDMETHODCALLTYPE" None []) []);
    [ | exact Hh | reflexivity | reflexivity | reflexivity | reflexivity ].
  rewrite expand_one_plain by exact Hc; reflexivity.
Qed.

(** [STDMETHOD(name)] becomes [HRESULT name]. *)
Lemma STDMETHOD_expands (name : token) (k : nat) :
  plain (macros false) name = true ->
  preprocess false (5 + k) ["STDMETHOD"; "("; name; ")"] =
  Some ["HRESULT"; name].
Proof.
  intro H; apply plain_spec in H as (Hm & A & B & C).
  unfold preprocess; cbn [Nat.add].
  rewrite (expand_call1 _ _ [] "STDMETHOD" [name; ")"] []
             (Macro "STDMETHOD" (Some ["name"])
                    ["HRESULT"; "STDMETHODCALLTYPE"; "name"]) "name"
             [name] [name] ["HRESULT"; name]);
    [ reflexivity | reflexivity | reflexivity | reflexivity
      | apply parse_one_plain_arg; assumption
      | apply expand_one_plain; exact Hm
      | apply expand_method_body; [reflexivity | reflexivity | exact Hm]
      | apply (pending_plain _ _ ["HRESULT"]); exact Hm ].
Qed.

(** * Further properties of the header *)

(** ** What the comparison looks at *)

Lemma byte_eqb_sym (x y : byte) : Byte.eqb x y = Byte.eqb y x.
Proof.
  destruct (Byte.eqb x y) eqn:E.
  - apply Byte.byte_dec_bl in E; subst; symmetry; apply byte_eqb_refl.
  - destruct (Byte.eqb y x) eqn:E'; [|reflexivity].
    apply Byte.byte_dec_bl in E'; subst.
    rewrite byte_eqb_refl in E; discriminate E.
Qed.

(** Swapping the blocks negates the result of [memcmp]. *)
Lemma memcmp_swap (n : nat) (s1 s2 : list byte) :
  memcmp s1 s2 n = - memcmp s2 s1 n.
Proof.
  revert s1 s2; induction n as [|n IH]; intros [|x s1] [|y s2]; simpl;
    try reflexivity.
  rewrite (byte_eqb_sym y x).
  destruct (Byte.eqb x y); [apply IH | lia].
Qed.

(** X1: The operator reads the first [sizeof(GUID)] bytes at each address
    and nothing else: it returns [false] exactly when those bytes are the
    same, whatever follows them. *)
Theorem operator_eq_reads_sizeof_bytes (dm : data_model) (a b : list byte) :
  (sizeof_GUID dm <= List.length a)%nat ->
  (sizeof_GUID dm <= List.length b)%nat ->
  operator_eq dm a b = false <->
  firstn (sizeof_GUID dm) a = firstn (sizeof_GUID dm) b.
Proof.
  intros Ha Hb; unfold operator_eq, bool_of_int.
  rewrite negb_false_iff, Z.eqb_eq.
  apply memcmp_zero_iff; assumption.
Qed.

Lemma operator_eq_reads_sizeof_bytes_witness :
  operator_eq ILP32 (object_of ILP32 x00 GUID_IUnknown ++ [xff])
                    (object_of ILP32 x00 GUID_IUnknown ++ [x00]) = false <->
  firstn (sizeof_GUID ILP32) (object_of ILP32 x00 GUID_IUnknown ++ [xff]) =
  firstn (sizeof_GUID ILP32) (object_of ILP32 x00 GUID_IUnknown ++ [x00]).
Proof.
  apply (operator_eq_reads_sizeof_bytes ILP32); vm_compute; lia.
Defined.

(** X2: The order of the operands does not matter. *)
Theorem operator_eq_symmetric (dm : data_model) (a b : list byte) :
  operator_eq dm a b = operator_eq dm b a.
Proof.
  unfold operator_eq, bool_of_int.
  rewrite (memcmp_swap _ a b).
  destruct (memcmp b a (sizeof_GUID dm)); reflexivity.
Qed.

(** ** The object of a GUID value *)

Lemma le_bytes_length (n : nat) (v : Z) : List.length (le_bytes n v) = n.
Proof.
  revert v; induction n as [|n IH]; intro v; simpl; [|rewrite IH]; reflexivity.
Qed.

Lemma Data4_bytes_length (g : GUID) :
  List.length (firstn 8 (Data4 g ++ repeat x00 8)) = 8%nat.
Proof.
  rewrite length_firstn, length_app, repeat_length; lia.
Qed.

Lemma write_at_0 (src mid post : list byte) :
  List.length mid = List.length src ->
  write 0 src (mid ++ post) = (src ++ post)%list.
Proof.
  revert mid; induction src as [|b src IH]; intros [|d mid] H;
    try discriminate H; simpl.
  - destruct post; reflexivity.
  - f_equal; apply IH; simpl in H; congruence.
Qed.

(** Writing over the middle of a block replaces the middle. *)
Lemma write_at (off : nat) (pre src mid post : list byte) :
  off = List.length pre ->
  List.length mid = List.length src ->
  write off src (pre ++ mid ++ post) = (pre ++ src ++ post)%list.
Proof.
  intros -> H; induction pre as [|d pre IH]; simpl.
  - apply write_at_0; exact H.
  - f_equal; exact IH.
Qed.

Ltac lengths :=
  rewrite ?length_app, ?le_bytes_length, ?repeat_length, ?Data4_bytes_length;
  reflexivity.

(** The bytes of the object, member after member, then the padding. *)
Lemma object_of_bytes (dm : data_model) (pad : byte) (g : GUID) :
  object_of dm pad g =
  (le_bytes (Z.to_nat (sizeof_long dm)) (Data1 g)
   ++ le_bytes 2 (Data2 g) ++ le_bytes 2 (Data3 g)
   ++ firstn 8 (Data4 g ++ repeat x00 8)
   ++ repeat pad (trailing_padding dm))%list.
Proof.
  unfold object_of.
  pose proof (Data4_bytes_length g) as H4.
  set (d4 := firstn 8 (Data4 g ++ repeat x00 8)) in *.
  assert (E : forall m, members_of m "_GUID" =
                Some [("Data1", (0, sizeof_long m));
                      ("Data2", (sizeof_long m, 2));
                      ("Data3", (sizeof_long m + 2, 2));
                      ("Data4", (sizeof_long m + 4, 8))])
    by (intros []; by_computation).
  rewrite E; cbv [fold_left fst snd].
  change (member_bytes g "Data1" ?n) with (le_bytes n (Data1 g)).
  change (member_bytes g "Data2" (Z.to_nat 2)) with (le_bytes 2 (Data2 g)).
  change (member_bytes g "Data3" (Z.to_nat 2)) with (le_bytes 2 (Data3 g)).
  change (member_bytes g "Data4" (Z.to_nat 8)) with d4.
  set (L := Z.to_nat (sizeof_long dm)).
  set (D1 := le_bytes L (Data1 g)).
  set (D2 := le_bytes 2 (Data2 g)).
  set (D3 := le_bytes 2 (Data3 g)).
  assert (H1 : List.length D1 = L) by apply le_bytes_length.
  assert (H2 : List.length D2 = 2%nat) by apply le_bytes_length.
  assert (H3 : List.length D3 = 2%nat) by apply le_bytes_length.
  assert (EN : repeat pad (sizeof_GUID dm) =
               ([] ++ repeat pad L ++ repeat pad 2 ++ repeat pad 2
                ++ repeat pad 8 ++ repeat pad (trailing_padding dm))%list)
    by (destruct dm; reflexivity).
  assert (O1 : Z.to_nat 0 = 0%nat) by reflexivity.
  assert (O3 : Z.to_nat (sizeof_long dm + 2) = (L + 2)%nat)
    by (destruct dm; reflexivity).
  assert (O4 : Z.to_nat (sizeof_long dm + 4) = (L + 2 + 2)%nat)
    by (destruct dm; reflexivity).
  rewrite EN, O1, O3, O4.
  clearbody D1 D2 D3 d4 L.
  rewrite (write_at 0 [] D1) by (rewrite ?repeat_length; auto).
  rewrite app_nil_l.
  rewrite (write_at L D1 D2) by (rewrite ?repeat_length; auto).
  rewrite (app_assoc D1 D2).
  rewrite (write_at (L + 2) (D1 ++ D2) D3)
    by (rewrite ?length_app, ?repeat_length; lia).
  rewrite (app_assoc (D1 ++ D2) D3).
  rewrite (write_at (L + 2 + 2) ((D1 ++ D2) ++ D3) d4)
    by (rewrite ?length_app, ?repeat_length; lia).
  rewrite <- !app_assoc; reflexivity.
Qed.

Lemma operator_eq_false_iff (dm : data_model) (a b : list byte) :
  List.length a = sizeof_GUID dm -> List.length b = sizeof_GUID dm ->
  operator_eq dm a b = false <-> a = b.
Proof.
  intros Ha Hb.
  pose proof (operator_eq_true_iff dm a b Ha Hb) as H.
  destruct (operator_eq dm a b); split; intro E; try reflexivity.
  - discriminate E.
  - exfalso; apply (proj1 H); [reflexivity | exact E].
  - destruct (list_eq_dec Byte.byte_eq_dec a b) as [|N]; [assumption|].
    apply H in N; discriminate N.
Qed.

(** X3: Two objects of one value are told apart exactly on the target that
    pads the struct, LP64, and there exactly when the padding bytes
    differ: [memcmp] runs over the padding too. *)
Theorem operator_eq_sees_padding (dm : data_model) (g : GUID) (p1 p2 : byte) :
  operator_eq dm (object_of dm p1 g) (object_of dm p2 g) = true <->
  dm = LP64 /\ p1 <> p2.
Proof.
  rewrite operator_eq_true_iff by apply object_of_length.
  rewrite !object_of_bytes; split.
  - intro H; destruct dm.
    + exfalso; apply H; reflexivity.
    + split; [reflexivity|]; intro E; apply H; rewrite E; reflexivity.
    + exfalso; apply H; reflexivity.
  - intros [-> Hp] H.
    do 4 apply app_inv_head in H.
    change (trailing_padding LP64) with 4%nat in H.
    simpl in H; inversion H; contradiction.
Qed.

Lemma byte_value_of_Z (v : Z) : byte_value (byte_of_Z v) = v mod 256.
Proof.
  unfold byte_value, byte_of_Z.
  pose proof (Z.mod_pos_bound v 256 ltac:(lia)) as B.
  destruct (Byte.of_N (Z.to_N (v mod 256))) as [b|] eqn:E.
  - apply Byte.to_of_N in E; rewrite E; apply Z2N.id; lia.
  - apply Byte.of_N_None_iff in E; lia.
Qed.

(** Reading back what [le_bytes] wrote gives the value modulo
    [256^n]. *)
Lemma le_value_le_bytes (n : nat) (v : Z) :
  le_value (le_bytes n v) = v mod 256 ^ Z.of_nat n.
Proof.
  revert v; induction n as [|n IH]; intro v.
  - simpl; rewrite Z.mod_1_r; reflexivity.
  - cbn [le_bytes le_value]; rewrite byte_value_of_Z, IH.
    rewrite Nat2Z.inj_succ, Z.pow_succ_r by lia.
    rewrite Z.rem_mul_r by lia; reflexivity.
Qed.

Lemma le_bytes_inj (n : nat) (v w : Z) :
  0 <= v < 256 ^ Z.of_nat n -> 0 <= w < 256 ^ Z.of_nat n ->
  le_bytes n v = le_bytes n w -> v = w.
Proof.
  intros Hv Hw E; apply (f_equal le_value) in E.
  rewrite !le_value_le_bytes, !Z.mod_small in E by assumption; exact E.
Qed.

Lemma app_inj_length {A : Type} (a a' b b' : list A) :
  List.length a = List.length a' -> (a ++ b = a' ++ b')%list ->
  a = a' /\ b = b'.
Proof.
  revert a'; induction a as [|x a IH]; intros [|x' a'] H E;
    try discriminate H; simpl in *.
  - auto.
  - inversion E; subst; destruct (IH a') as [-> ->]; auto.
Qed.

Lemma fits_Data1 (dm : data_model) (g : GUID) :
  fits dm g -> 0 <= Data1 g < 256 ^ Z.of_nat (Z.to_nat (sizeof_long dm)).
Proof. intros [H _]; destruct dm; exact H. Qed.

(** X4: On values, with the same padding on both sides: the operator
    returns [false] exactly when the two [GUID]s are equal member by
    member. *)
Theorem operator_eq_on_values (dm : data_model) (pad : byte) (g1 g2 : GUID) :
  fits dm g1 -> fits dm g2 ->
  operator_eq dm (object_of dm pad g1) (object_of dm pad g2) = false <->
  g1 = g2.
Proof.
  intros F1 F2.
  rewrite operator_eq_false_iff by apply object_of_length.
  split; [|intros ->; reflexivity].
  rewrite !object_of_bytes; intro E.
  pose proof (fits_Data1 dm g1 F1) as R1.
  pose proof (fits_Data1 dm g2 F2) as R2.
  destruct F1 as (_ & A1 & B1 & L1), F2 as (_ & A2 & B2 & L2).
  apply app_inj_length in E as [E1 E]; [|rewrite !le_bytes_length; reflexivity].
  apply app_inj_length in E as [E2 E]; [|reflexivity].
  apply app_inj_length in E as [E3 E]; [|reflexivity].
  apply app_inj_length in E as [E4 _];
    [|rewrite !Data4_bytes_length; reflexivity].
  apply le_bytes_inj in E1; [|assumption..].
  apply le_bytes_inj in E2; [|assumption..].
  apply le_bytes_inj in E3; [|assumption..].
  rewrite !firstn_app, <- L1, firstn_all, Nat.sub_diag in E4.
  rewrite L1, <- L2, firstn_all, Nat.sub_diag in E4.
  simpl in E4; rewrite !app_nil_r in E4.
  destruct g1, g2; simpl in *; congruence.
Qed.

Lemma operator_eq_on_values_witness :
  operator_eq ILP32 (object_of ILP32 x00 GUID_IUnknown)
                    (object_of ILP32 x00 GUID_NULL) = false <->
  GUID_IUnknown = GUID_NULL.
Proof.
  apply (operator_eq_on_values ILP32 x00 GUID_IUnknown GUID_NULL);
    unfold fits; simpl; lia.
Defined.

(** ** Status codes in an HRESULT *)

Lemma as_HRESULT_convert (dm : data_model) (v : Z) :
  as_HRESULT dm v = Some (convert (IntType true 32) v).
Proof. destruct dm; reflexivity. Qed.

(** X5: Every 32-bit code can be held in an [HRESULT] without loss: the
    value read back as unsigned is the code, and the [HRESULT] is
    negative exactly when bit 31 of the code is set. *)
Theorem HRESULT_holds_32_bit_codes (dm : data_model) (v : Z) :
  0 <= v < 2 ^ 32 ->
  exists hr,
    as_HRESULT dm v = Some hr /\
    - 2 ^ 31 <= hr < 2 ^ 31 /\
    convert (IntType false 32) hr = v /\
    (hr < 0 <-> Z.testbit v 31 = true).
Proof.
  intro Hv; rewrite as_HRESULT_convert; eexists; split; [reflexivity|].
  unfold convert; cbn [it_bits it_signed andb].
  change (2 ^ 32) with 4294967296 in *.
  change (2 ^ (32 - 1)) with 2147483648.
  change (2 ^ 31) with 2147483648.
  rewrite (Z.mod_small v) by lia.
  assert (T : Z.testbit v 31 = true <-> 2147483648 <= v).
  { rewrite Z.testbit_true by lia.
    change (2 ^ 31) with 2147483648.
    pose proof (Z.div_mod v 2147483648 ltac:(lia)) as D.
    pose proof (Z.mod_pos_bound v 2147483648 ltac:(lia)) as B.
    assert (Q : v / 2147483648 = 0 \/ v / 2147483648 = 1) by lia.
    destruct Q as [Q|Q]; rewrite Q in *; cbn; split; intro; try lia;
      discriminate. }
  destruct (2147483648 <=? v) eqn:E.
  - apply Z.leb_le in E; repeat split; try lia.
    + replace (v - 4294967296) with (v + (-1) * 4294967296) by lia.
      rewrite Z.mod_add by lia; apply Z.mod_small; lia.
    + intros _; apply T; exact E.
  - apply Z.leb_gt in E; repeat split; try lia.
    + apply Z.mod_small; lia.
    + intro H; apply T in H; lia.
Qed.

Lemma HRESULT_holds_32_bit_codes_witness :
  exists hr,
    as_HRESULT LP64 0x80004002 = Some hr /\
    - 2 ^ 31 <= hr < 2 ^ 31 /\
    convert (IntType false 32) hr = 0x80004002 /\
    (hr < 0 <-> Z.testbit 0x80004002 31 = true).
Proof.
  apply (HRESULT_holds_32_bit_codes LP64 0x80004002); simpl; lia.
Defined.

(** ** More on the macros *)

(** Text that names no macro comes out as it went in. *)
Lemma expand_no_macro (ms : list macro) (hide : list string)
      (toks : list token) (k : nat) :
  (forall t, In t toks -> find_macro t ms = None) ->
  expand ms (S (List.length toks) + k) hide toks = Some toks.
Proof.
  induction toks as [|t toks IH]; intro H.
  - reflexivity.
  - cbn [List.length Nat.add].
    rewrite expand_keep by (apply H; left; reflexivity).
    cbn [Nat.add] in IH; rewrite IH; [reflexivity|].
    intros u Hu; apply H; right; exact Hu.
Qed.

Lemma find_macro_windows (t : token) :
  t <> "__TYPES_H" -> t <> "DLLEXPORT" -> find_macro t (macros true) = None.
Proof.
  intros A B; cbn [macros find_macro mac_name].
  apply String.eqb_neq in A, B; rewrite A, B; reflexivity.
Qed.

(** X6: With [_WINDOWS] defined the header defines [DLLEXPORT] and its
    guard and nothing else: text that mentions neither passes through
    its macros unchanged, the status constants and the COM macros
    included, which are left to [<objbase.h>]. *)
Theorem windows_branch_defines_only_DLLEXPORT (toks : list token) (k : nat) :
  ~ In "__TYPES_H" toks -> ~ In "DLLEXPORT" toks ->
  preprocess true (S (List.length toks) + k) toks = Some toks.
Proof.
  intros A B; unfold preprocess; apply expand_no_macro.
  intros t Ht; apply find_macro_windows; intros ->; contradiction.
Qed.

Lemma windows_branch_defines_only_DLLEXPORT_witness :
  preprocess true 7
    ["return"; "E_NOINTERFACE"; ";"; "STDMETHODCALLTYPE"; "S_OK"; "S_FALSE"] =
  Some ["return"; "E_NOINTERFACE"; ";"; "STDMETHODCALLTYPE"; "S_OK"; "S_FALSE"].
Proof.
  apply (windows_branch_defines_only_DLLEXPORT
           ["return"; "E_NOINTERFACE"; ";"; "STDMETHODCALLTYPE"; "S_OK";
            "S_FALSE"] 0);
    simpl; intuition discriminate.
Defined.

(** An invocation of a macro with two parameters. *)
Lemma expand_call2 (ms : list macro) (f : nat) (hide : list string)
      (t : token) (rest rest2 : list token) (m : macro) (p q : string)
      (a a' b b' body : list token) :
  existsb (String.eqb t) hide = false ->
  find_macro t ms = Some m ->
  mac_params m = Some [p; q] ->
  parse_args rest 0 [] [] = Some ([a; b], rest2) ->
  expand ms f hide a = Some a' ->
  expand ms f hide b = Some b' ->
  expand ms f (t :: hide) (subst [p; q] [a'; b'] (mac_body m)) = Some body ->
  pending ms (t :: hide) body rest2 = None ->
  expand ms (S f) hide (t :: "(" :: rest) =
  option_map (app body) (expand ms f hide rest2).
Proof.
  intros Hh Hm Hp Ha Ea Eb Hb Hq; cbn [expand]; rewrite Hh, Hm, Hp.
  cbn [String.eqb Ascii.eqb Bool.eqb]; rewrite Ha.
  cbn [List.length Nat.eqb map sequence]; rewrite Ea, Eb.
  cbn [option_map]; rewrite Hb, Hq; reflexivity.
Qed.

Lemma parse_two_plain_args (a b : token) (rest : list token) :
  String.eqb a "(" = false -> String.eqb a ")" = false ->
  String.eqb a "," = false ->
  String.eqb b "(" = false -> String.eqb b ")" = false ->
  String.eqb b "," = false ->
  parse_args (a :: "," :: b :: ")" :: rest) 0 [] [] = Some ([[a]; [b]], rest).
Proof.
  intros A1 A2 A3 B1 B2 B3; cbn [parse_args].
  rewrite A1, A2, A3; cbn [String.eqb Ascii.eqb Bool.eqb andb Nat.eqb].
  rewrite B1, B2, B3; reflexivity.
Qed.

(** X7: [STDMETHOD_(type, name)] followed by any text becomes [type name]
    followed by the expansion of that text: the macro declares a method
    of the given return type and leaves the parameter list that follows
    to be read as usual. *)
Theorem STDMETHOD__declares (ty name : token) (rest r : list token) (k : nat) :
  plain (macros false) ty = true ->
  plain (macros false) name = true ->
  preprocess false (4 + k) rest = Some r ->
  preprocess false (5 + k)
    ("STDMETHOD_" :: "(" :: ty :: "," :: name :: ")" :: rest) =
  Some (ty :: name :: r).
Proof.
  intros Ht Hn Hr.
  apply plain_spec in Ht as (Tm & T1 & T2 & T3).
  apply plain_spec in Hn as (Nm & N1 & N2 & N3).
  unfold preprocess in *; cbn [Nat.add] in *.
  rewrite (expand_call2 _ _ [] "STDMETHOD_" _ rest
             (Macro "STDMETHOD_" (Some ["type"; "name"])
                    ["type"; "STDMETHODCALLTYPE"; "name"])
             "type" "name" [ty] [ty] [name] [name] [ty; name]).
  - rewrite Hr; reflexivity.
  - reflexivity.
  - reflexivity.
  - reflexivity.
  - apply parse_two_plain_args; assumption.
  - apply expand_one_plain; exact Tm.
  - apply expand_one_plain; exact Nm.
  - change (subst ["type"; "name"] [[ty]; [name]] _)
      with [ty; "STDMETHODCALLTYPE"; name].
    apply expand_method_body; [reflexivity | exact Tm | exact Nm].
  - apply (pending_plain _ _ [ty]); exact Nm.
Qed.

Lemma STDMETHOD__declares_witness :
  preprocess false 5
    ["STDMETHOD_"; "("; "ULONG"; ","; "AddRef"; ")"; "("; ")"; ";"] =
  Some ["ULONG"; "AddRef"; "("; ")"; ";"].
Proof.
  apply (STDMETHOD__declares "ULONG" "AddRef" ["("; ")"; ";"]
                             ["("; ")"; ";"] 0);
    reflexivity.
Defined.

(** X8: [STDMETHOD(name)] followed by any text becomes [HRESULT name]
    followed by the expansion of that text. *)
Theorem STDMETHOD_declares (name : token) (rest r : list token) (k : nat) :
  plain (macros false) name = true ->
  preprocess false (4 + k) rest = Some r ->
  preprocess false (5 + k) ("STDMETHOD" :: "(" :: name :: ")" :: rest) =
  Some ("HRESULT" :: name :: r).
Proof.
  intros Hn Hr.
  apply plain_spec in Hn as (Nm & N1 & N2 & N3).
  unfold preprocess in *; cbn [Nat.add] in *.
  rewrite (expand_call1 _ _ [] "STDMETHOD" _ rest
             (Macro "STDMETHOD" (Some ["name"])
                    ["HRESULT"; "STDMETHODCALLTYPE"; "name"]) "name"
             [name] [name] ["HRESULT"; name]).
  - rewrite Hr; reflexivity.
  - reflexivity.
  - reflexivity.
  - reflexivity.
  - apply parse_one_plain_arg; assumption.
  - apply expand_one_plain; exact Nm.
  - change (subst ["name"] [[name]] _)
      with ["HRESULT"; "STDMETHODCALLTYPE"; name].
    apply expand_method_body; [reflexivity | reflexivity | exact Nm].
  - apply (pending_plain _ _ ["HRESULT"]); exact Nm.
Qed.

Lemma STDMETHOD_declares_witness :
  preprocess false 11
    ["STDMETHOD"; "("; "QueryInterface"; ")";
     "("; "REFIID"; ","; "void"; "*"; "*"; "out"; ")"; ";"] =
  Some ["HRESULT"; "QueryInterface";
        "("; "REFIID"; ","; "void"; "*"; "*"; "out"; ")"; ";"].
Proof.
  apply (STDMETHOD_declares "QueryInterface"
           ["("; "REFIID"; ","; "void"; "*"; "*"; "out"; ")"; ";"]
           ["("; "REFIID"; ","; "void"; "*"; "*"; "out"; ")"; ";"] 6);
    reflexivity.
Defined.

(** X9: [STDMETHODIMP], which heads the definition of a method, and
    [STDMETHOD(name)], which declares it, name the same return type:
    the first expands to [int], the second to [HRESULT], an alias of
    [int]. *)
Theorem STDMETHODIMP_matches_STDMETHOD (name : token) (k : nat) :
  plain (macros false) name = true ->
  exists a b,
    preprocess false (5 + k) ["STDMETHODIMP"; name] = Some [a; name] /\
    preprocess false (5 + k) ["STDMETHOD"; "("; name; ")"] = Some [b; name] /\
    specifier_type a = Some Tint /\
    specifier_type b = Some Tint.
Proof.
  intro Hn; exists "int", "HRESULT".
  split; [|split; [apply STDMETHOD_expands; exact Hn | split; by_computation]].
  apply plain_spec in Hn as (Nm & _).
  unfold preprocess; cbn [Nat.add].
  rewrite (expand_object _ _ _ "STDMETHODIMP" [name]
             (Macro "STDMETHODIMP" None ["int"]) ["int"]).
  - rewrite expand_one_plain by exact Nm; reflexivity.
  - reflexivity.
  - reflexivity.
  - reflexivity.
  - reflexivity.
  - reflexivity.
Qed.

Lemma STDMETHODIMP_matches_STDMETHOD_witness :
  exists a b,
    preprocess false 5 ["STDMETHODIMP"; "Release"] = Some [a; "Release"] /\
    preprocess false 5 ["STDMETHOD"; "("; "Release"; ")"] =
      Some [b; "Release"] /\
    specifier_type a = Some Tint /\
    specifier_type b = Some Tint.
Proof.
  apply (STDMETHODIMP_matches_STDMETHOD "Release" 0); reflexivity.
Defined.

(** ** The declarations as a whole *)

Lemma lookup_forallb {A : Type} (P : A -> bool) (e : list (string * A))
      (x : string) (v : A) :
  forallb (fun p => P (snd p)) e = true ->
  Env.lookup x e = Some v -> P v = true.
Proof.
  induction e as [|[y w] e IH]; simpl; [discriminate|].
  rewrite andb_true_iff; intros [H1 H2].
  destruct (String.eqb x y); [intros [= <-]; exact H1 | apply IH; exact H2].
Qed.

(** X10: The header declares no name twice, every declaration mentions only
    type names declared above it, and so every type name resolves to a
    type in which no alias is left. *)
Theorem header_names_resolve :
  distinct (map declared_name (types_h false)) = true /\
  declared_before_use [] (types_h false) = true /\
  forall (name : string) (t : ctype),
    type_of name = Some t -> closed t = true.
Proof.
  split; [by_computation|]; split; [by_computation|].
  intros name t; unfold type_of.
  apply (lookup_forallb closed); by_computation.
Qed.

(** X11: Every type name of the header is a complete type on every target:
    it has a size, and the size is positive. *)
Theorem header_types_are_complete (dm : data_model) (name : string) (t : ctype) :
  type_of name = Some t ->
  exists n, sizeof_type dm name = Some n /\ 0 < n.
Proof.
  intro H; unfold sizeof_type; rewrite H.
  assert (C : complete dm t = true).
  { revert H; unfold type_of; apply (lookup_forallb (complete dm)).
    destruct dm; by_computation. }
  unfold complete in C.
  destruct (sizeof dm (struct_layouts dm) t) as [n|]; [|discriminate C].
  exists n; split; [reflexivity | apply Z.ltb_lt; exact C].
Qed.

Lemma header_types_are_complete_witness :
  exists n, sizeof_type LP64 "REFIID" = Some n /\ 0 < n.
Proof.
  apply (header_types_are_complete LP64 "REFIID" (Tref (Tstruct "_GUID")));
    reflexivity.
Defined.

(** X12: The handles, the two pointer aliases and an [IUnknown] object,
    which holds nothing but its table pointer, have the size of a
    pointer on every target. *)
Theorem pointer_sized_names (dm : data_model) :
  Forall (fun name => sizeof_type dm name = Some (sizeof_ptr dm))
         ["HWND"; "HMENU"; "HANDLE"; "LPIID"; "LPWSTR"; "IUnknown"].
Proof. destruct dm; repeat constructor. Qed.

(** X13: The seven names spelled with [long], directly or through an alias,
    have the width of the target's [long]: [UINT], [ULONG], [DWORD] and
    [LCID] unsigned, [LONG], [BOOL] and [SCODE] signed. *)
Theorem long_names_follow_long (dm : data_model) :
  Forall (fun name =>
            int_type_named dm name =
            Some (IntType false (char_bit * sizeof_long dm)))
         ["UINT"; "ULONG"; "DWORD"; "LCID"] /\
  Forall (fun name =>
            int_type_named dm name =
            Some (IntType true (char_bit * sizeof_long dm)))
         ["LONG"; "BOOL"; "SCODE"].
Proof. destruct dm; split; repeat constructor. Qed.

(** X14: On every target the members of [GUID] follow one another without
    a gap, [Data1] having the size of [long], and the struct ends at
    the next multiple of that size. *)
Theorem GUID_members_are_contiguous (dm : data_model) :
  members_of dm "_GUID" =
    Some [("Data1", (0, sizeof_long dm));
          ("Data2", (sizeof_long dm, 2));
          ("Data3", (sizeof_long dm + 2, 2));
          ("Data4", (sizeof_long dm + 4, 8))] /\
  sizeof_type dm "GUID" =
    Some (align_up (sizeof_long dm + 12) (sizeof_long dm)) /\
  (trailing_padding dm = 0%nat <-> sizeof_long dm = 4).
Proof.
  destruct dm; (split; [by_computation|]); (split; [by_computation|]);
    split; intro H; try reflexivity; vm_compute in H; discriminate H.
Qed.

(** ** The include guard *)

Lemma include_defines_guard (st : list macro * list decl) :
  is_defined "__TYPES_H" (fst (include_types_h st)) = true.
Proof.
  destruct st as [ms ds]; unfold include_types_h.
  destruct (is_defined "__TYPES_H" ms) eqn:E; [exact E | reflexivity].
Qed.

(** X15: Including the header again changes nothing: whatever the
    translation unit held before, any number of further includes leave
    the macros and declarations as the first one made them. *)
Theorem include_guard (n : nat) (st : list macro * list decl) :
  Nat.iter (S n) include_types_h st = include_types_h st.
Proof.
  induction n as [|n IH]; [reflexivity|].
  change (Nat.iter (S (S n)) include_types_h st)
    with (include_types_h (Nat.iter (S n) include_types_h st)).
  rewrite IH.
  pose proof (include_defines_guard st) as G.
  destruct (include_types_h st) as [ms ds]; simpl in G.
  unfold include_types_h; rewrite G; reflexivity.
Qed.

(** ** COM-style declarations *)





(** The header's own declarations of lines 79-81 are accepted. *)
Lemma IUnknown_lines_accepted : forallb accepts_method IUnknown_lines = true.
Proof. by_computation. Qed.



